(** * tick_counter: hardware tick counters, frequency and precision

    Shallow embedding of [src/src/lib.rs] (and of the [TickCounter]
    helper used by [src/src/bin/sample.rs]).

    - [f64] values are IEEE-754 binary64 numbers, modelled with the
      Standard Library's [SpecFloat] (precision 53, emax 1024, rounding
      to nearest, ties to even), which is executable.
    - The hardware (the tick counter read by [rdtsc] / [cntvct_el0], the
      [cntfrq_el0] register and [thread::sleep]) is an explicit world
      threaded through a small state monad; every hardware access is
      appended to a trace so that the order of effects can be stated.
    - u64 subtraction depends on the build: with overflow checks (debug)
      an underflow panics, without them (release) it wraps modulo 2^64. *)

From Stdlib Require Import ZArith List Bool Lia.
From Stdlib Require Import Floats.SpecFloat.
Import ListNotations.
Open Scope Z_scope.

(** ** Machine integers *)

Definition u64_modulus : Z := 2 ^ 64.
Definition u64_max : Z := u64_modulus - 1.

(** Reading a 64-bit register yields its value modulo 2^64. *)
Definition u64 (v : Z) : Z := v mod u64_modulus.

(** Rust profiles: [Debug] has overflow checks, [Release] wraps. *)
Inductive build_mode := Debug | Release.

(** Result of running Rust code: a value, or a panic. *)
Inductive outcome (A : Type) : Type :=
| Ret (a : A)
| Panic.
Arguments Ret {A} a.
Arguments Panic {A}.

(** [a - b] on [u64]. *)
Definition sub_u64 (mode : build_mode) (a b : Z) : outcome Z :=
  if a <? b then
    match mode with
    | Debug => Panic
    | Release => Ret (a - b + u64_modulus)
    end
  else Ret (a - b).

(** ** f64 *)

Module F64.
Definition prec : Z := 53.
Definition emax : Z := 1024.
End F64.

Definition f64 := spec_float.

Definition f64_div : f64 -> f64 -> f64 := SFdiv F64.prec F64.emax.
Definition f64_add : f64 -> f64 -> f64 := SFadd F64.prec F64.emax.

(** [n as f64] for an unsigned integer [n]: round to nearest, ties to
    even. *)
Definition u64_as_f64 (n : Z) : f64 := binary_normalize F64.prec F64.emax n 0 false.

(** [x as u64] for an [f64] [x] (Rust's saturating cast): NaN gives 0,
    the value is truncated toward zero and clamped to [0, u64::MAX]. *)
Definition f64_as_u64 (x : f64) : Z :=
  match x with
  | S754_zero _ => 0
  | S754_nan => 0
  | S754_infinity s => if s then 0 else u64_max
  | S754_finite s m e =>
      if s then 0
      else
        let v := if 0 <=? e then Z.shiftl (Zpos m) e
                 else Z.shiftr (Zpos m) (- e) in
        Z.min v u64_max
  end.

(** The literal [1.0e9_f64]. *)
Definition f64_1e9 : f64 := u64_as_f64 1000000000.

(** The [f64] nearest to the rational [p / q] ([p, q > 0]), rounding to
    nearest, ties to even: one correctly rounded division of the exact
    integers, with no rounding of [p] or [q] before it. *)
Definition f64_of_ratio (p q : Z) : f64 :=
  let '(m, e, l) := SFdiv_core_binary F64.prec F64.emax p 0 q 0 in
  binary_round_aux F64.prec F64.emax false m e l.

(** ** [std::time::Duration] *)

Record Duration := mk_duration { secs : Z; nanos : Z }.

Definition NANOS_PER_SEC : Z := 1000000000.

Definition from_secs (s : Z) : Duration := mk_duration s 0.

(** [Duration::as_secs_f64]:
    [(self.secs as f64) + (self.nanos as f64) / (NANOS_PER_SEC as f64)]. *)
Definition as_secs_f64 (d : Duration) : f64 :=
  f64_add (u64_as_f64 (secs d))
          (f64_div (u64_as_f64 (nanos d)) (u64_as_f64 NANOS_PER_SEC)).

(** ** [precision] (lib.rs, lines 165-168) *)

(** [pub fn precision(frequency: u64) -> f64 { 1.0e9_f64 / (frequency as f64) }] *)
Definition precision (frequency : Z) : f64 :=
  f64_div f64_1e9 (u64_as_f64 frequency).

(** ** Frequency base (lib.rs, lines 16-23) *)

Inductive TickCounterFrequencyBase :=
| Hardware
| Measured (d : Duration).

(** ** The hardware world *)

(** Observable hardware accesses, in program order. *)
Inductive event :=
| EvCounter (v : Z)        (* a read of the tick counter *)
| EvFreqReg (v : Z)        (* a read of [cntfrq_el0] *)
| EvSleep (d : Duration).  (* [thread::sleep(d)] *)

(** [counter i] is the tick counter value seen by the [i]-th read;
    [reads] counts the reads done so far; [cntfrq] is the content of
    [cntfrq_el0]; [trace] lists the accesses done so far. *)
Record world := mk_world {
  counter : nat -> Z;
  reads : nat;
  cntfrq : Z;
  trace : list event
}.

Definition M (A : Type) : Type := world -> outcome (A * world).

Definition ret {A} (a : A) : M A := fun w => Ret (a, w).

Definition bind {A B} (m : M A) (f : A -> M B) : M B :=
  fun w => match m w with
           | Ret (a, w') => f a w'
           | Panic => Panic
           end.

Notation "'do' x <- c1 ; c2" := (bind c1 (fun x => c2))
  (at level 60, x name, c1 at next level, right associativity).
Notation "'do' ' pat <- c1 ; c2" :=
  (bind c1 (fun x => match x with pat => c2 end))
  (at level 60, pat pattern, c1 at next level, right associativity).

(** Lift a pure Rust computation (which may panic). *)
Definition lift {A} (o : outcome A) : M A :=
  fun w => match o with Ret a => Ret (a, w) | Panic => Panic end.

Definition log (e : event) (w : world) : world :=
  mk_world (counter w) (reads w) (cntfrq w) (trace w ++ [e]).

(** One read of the 64-bit tick counter. *)
Definition read_counter : M Z :=
  fun w => let v := u64 (counter w (reads w)) in
           Ret (v, mk_world (counter w) (S (reads w)) (cntfrq w)
                            (trace w ++ [EvCounter v])).

(** [mrs x0, cntfrq_el0] *)
Definition read_cntfrq : M Z :=
  fun w => let v := u64 (cntfrq w) in Ret (v, log (EvFreqReg v) w).

(** [thread::sleep(d)]: blocks, touches no counter. *)
Definition sleep (d : Duration) : M unit :=
  fun w => Ret (tt, log (EvSleep d) w).

(** ** Counter reads (lib.rs, lines 25-51 and 79-149) *)

Inductive arch := X86_64 | AArch64.

(** [rdtsc]: the low half of the counter in [eax], the high half in [edx]
    (the upper halves of [rax] and [rdx] are cleared). *)
Definition rdtsc : M (Z * Z) :=
  do v <- read_counter;
  ret (Z.shiftr v 32, Z.land v (2 ^ 32 - 1)).

(** [shl rdx, 32; or rax, rdx] *)
Definition combine_edx_eax (edx eax : Z) : Z :=
  Z.lor (u64 (Z.shiftl edx 32)) eax.

(** [x86_64] [start]: [mfence; lfence; rdtsc; shl rdx, 32; or rax, rdx].
    The fences order instructions; they have no observable value. *)
Definition x86_64_start : M Z :=
  do ' (edx, eax) <- rdtsc; ret (combine_edx_eax edx eax).

(** [x86_64] [stop]: [rdtsc; lfence; shl rdx, 32; or rax, rdx]. *)
Definition x86_64_stop : M Z :=
  do ' (edx, eax) <- rdtsc; ret (combine_edx_eax edx eax).

(** [aarch64_tick_counter]: [mrs x0, cntvct_el0]. *)
Definition aarch64_tick_counter : M Z := read_counter.

Definition start (a : arch) : M Z :=
  match a with X86_64 => x86_64_start | AArch64 => aarch64_tick_counter end.

Definition stop (a : arch) : M Z :=
  match a with X86_64 => x86_64_stop | AArch64 => aarch64_tick_counter end.

(** ** Frequency (lib.rs, lines 53-77 and 151-163) *)

(** [x86_64_measure_frequency(measure_duration: &Duration) -> u64] *)
Definition x86_64_measure_frequency (mode : build_mode) (measure_duration : Duration) : M Z :=
  do counter_start <- start X86_64;
  do _ <- sleep measure_duration;
  do counter_stop <- stop X86_64;
  do delta <- lift (sub_u64 mode counter_stop counter_start);
  ret (f64_as_u64 (f64_div (u64_as_f64 delta) (as_secs_f64 measure_duration))).

(** [frequency() -> (u64, TickCounterFrequencyBase)], one body per
    target architecture. *)
Definition frequency (a : arch) (mode : build_mode) : M (Z * TickCounterFrequencyBase) :=
  match a with
  | AArch64 =>
      do counter_frequency <- read_cntfrq;
      ret (counter_frequency, Hardware)
  | X86_64 =>
      let measure_duration := from_secs 1 in
      let frequency_base := Measured measure_duration in
      do hz <- x86_64_measure_frequency mode measure_duration;
      ret (hz, frequency_base)
  end.

(** ** The [TickCounter] helper *)

(** Modelled from the spec: the [TickCounter] type used by
    [src/src/bin/sample.rs] ([TickCounter::current()] and [elapsed()])
    is not in [src/src/lib.rs]. Spec 4.4: "[capture() -> Handle] stores
    one [start()] sample; [Handle.elapsed() -> ticks] calls [stop()] and
    returns the unsigned difference against the stored sample." *)
Record TickCounter := mk_tick_counter { tick_counter_start : Z }.

(** Modelled from the spec: [TickCounter::current()] ([capture]). *)
Definition current (a : arch) : M TickCounter :=
  do s <- start a; ret (mk_tick_counter s).

(** Modelled from the spec: [TickCounter::elapsed(&self)], the u64
    difference [stop() - self.start]. *)
Definition elapsed (a : arch) (mode : build_mode) (t : TickCounter) : M Z :=
  do s <- stop a; lift (sub_u64 mode s (tick_counter_start t)).

(** A world whose counter reads [vs] in order (0 afterwards). *)
Definition world_of (vs : list Z) (freq : Z) : world :=
  mk_world (fun i => nth i vs 0) 0 freq [].


(** ** Raw x86 counter reads (lib.rs, lines 79-114) *)

(** [x86_64_tick_counter]: [rdtsc], then
    [(reg_edx as u64) << 32 | reg_eax as u64]. *)
Definition x86_64_tick_counter : M Z :=
  do ' (reg_edx, reg_eax) <- rdtsc;
  ret (Z.lor (u64 (Z.shiftl reg_edx 32)) reg_eax).

(** [rdtscp]: [rdtsc] plus [ecx := IA32_TSC_AUX[31:0]], the core id
    register of the executing core, given as [tsc_aux]. *)
Definition rdtscp (tsc_aux : Z) : M (Z * Z * Z) :=
  do ' (reg_edx, reg_eax) <- rdtsc;
  ret (reg_edx, reg_eax, tsc_aux mod 2 ^ 32).

(** [x86_64_processor_id() -> (u64, u32)]. *)
Definition x86_64_processor_id (tsc_aux : Z) : M (Z * Z) :=
  do ' (reg_edx, reg_eax, reg_ecx) <- rdtscp tsc_aux;
  ret (Z.lor (u64 (Z.shiftl reg_edx 32)) reg_eax, reg_ecx).

(** ** Arithmetic of the sample program (src/bin/sample.rs) *)

Definition f64_mul : f64 -> f64 -> f64 := SFmul F64.prec F64.emax.

(** [a + b] on [u64]. *)
Definition add_u64 (mode : build_mode) (a b : Z) : outcome Z :=
  if u64_max <? a + b then
    match mode with
    | Debug => Panic
    | Release => Ret (a + b - u64_modulus)
    end
  else Ret (a + b).

(** The loop body of [compare_with_time_instant] (sample.rs, lines
    98-99): [let counter_start = tick_counter::start();
    let elapsed_ticks = tick_counter::stop() - counter_start + 1;]. *)
Definition sample_elapsed_ticks (a : arch) (mode : build_mode) : M Z :=
  do counter_start <- start a;
  do counter_stop <- stop a;
  do d <- lift (sub_u64 mode counter_stop counter_start);
  lift (add_u64 mode d 1).

(** [extended_usage] (sample.rs, line 59):
    [(elapsed_ticks as f64) * counter_accuracy]. *)
Definition elapsed_nanoseconds (elapsed_ticks : Z) (counter_accuracy : f64) : f64 :=
  f64_mul (u64_as_f64 elapsed_ticks) counter_accuracy.

(** * Lemmas *)

(** ** Binary digits and the shifts used by the rounding *)

Module Digits.

Lemma digits2_pos_bounds (p : positive) :
  2 ^ (Zpos (digits2_pos p) - 1) <= Zpos p < 2 ^ Zpos (digits2_pos p).
Proof.
  induction p as [p IH | p IH |].
  3: { cbn. lia. }
  all: cbn [digits2_pos]; rewrite Pos2Z.inj_succ;
    set (d := Zpos (digits2_pos p)) in *;
    replace (Z.succ d - 1) with d by lia;
    rewrite Z.pow_succ_r by lia;
    rewrite ?(Pos2Z.inj_xO p), ?(Pos2Z.inj_xI p);
    assert (Hd : 2 ^ d = 2 * 2 ^ (d - 1))
      by (rewrite <- Z.pow_succ_r by lia; f_equal; lia);
    rewrite Hd in *;
    generalize dependent (2 ^ (d - 1)); intros; lia.
Qed.

Lemma digits2_pos_unique (p : positive) (k : Z) :
  1 <= k -> 2 ^ (k - 1) <= Zpos p < 2 ^ k -> Zpos (digits2_pos p) = k.
Proof.
  intros Hk [Hlo Hhi].
  pose proof (digits2_pos_bounds p) as [Dlo Dhi].
  set (d := Zpos (digits2_pos p)) in *.
  assert (1 <= d) by (unfold d; lia).
  destruct (Z.lt_trichotomy d k) as [Hlt | [Heq | Hgt]]; [| exact Heq |].
  - assert (2 ^ d <= 2 ^ (k - 1)) by (apply Z.pow_le_mono_r; lia). lia.
  - assert (2 ^ k <= 2 ^ (d - 1)) by (apply Z.pow_le_mono_r; lia). lia.
Qed.

Lemma iter_pos_Pos_iter {A} (f : A -> A) (p : positive) (x : A) :
  iter_pos f p x = Pos.iter f x p.
Proof.
  revert x; induction p as [p IH | p IH |]; intros x; simpl; try reflexivity.
  - rewrite !IH, !Pos.iter_swap. reflexivity.
  - rewrite !IH. reflexivity.
Qed.

Lemma Pos_iter_xO (p k : positive) :
  Zpos (Pos.iter xO p k) = Zpos p * 2 ^ Zpos k.
Proof.
  induction k as [| k IH] using Pos.peano_ind.
  - simpl. lia.
  - rewrite Pos.iter_succ, Pos2Z.inj_succ, Z.pow_succ_r by lia.
    rewrite (Pos2Z.inj_xO (Pos.iter xO p k)), IH. lia.
Qed.

Lemma shr_1_m (r : shr_record) :
  0 <= shr_m r -> shr_m (shr_1 r) = shr_m r / 2.
Proof.
  destruct r as [m rb sb]; simpl; intros Hm.
  destruct m as [| [q | q |] | q]; simpl.
  - reflexivity.
  - rewrite (Pos2Z.inj_xI q). apply Z.div_unique with 1; lia.
  - rewrite (Pos2Z.inj_xO q). apply Z.div_unique with 0; lia.
  - reflexivity.
  - lia.
Qed.

Lemma shr_iter_m (k : positive) (r : shr_record) :
  0 <= shr_m r -> shr_m (Pos.iter shr_1 r k) = shr_m r / 2 ^ Zpos k.
Proof.
  intros Hm; induction k as [| k IH] using Pos.peano_ind.
  - simpl Pos.iter. rewrite shr_1_m by exact Hm. reflexivity.
  - rewrite Pos.iter_succ, shr_1_m.
    + rewrite IH, Z.div_div, Pos2Z.inj_succ, Z.pow_succ_r by lia. f_equal. lia.
    + rewrite IH. apply Z.div_pos; [lia | apply Z.pow_pos_nonneg; lia].
Qed.

End Digits.

(** ** Conversions and rounding in binary64 *)

Module Rounding.
Import Digits.

Lemma fexp64_eq (x : Z) : -1021 <= x -> fexp F64.prec F64.emax x = x - 53.
Proof. intros H. unfold fexp, emin, F64.prec, F64.emax. lia. Qed.

Lemma div_eucl_pair (a b : Z) : Z.div_eucl a b = (a / b, a mod b).
Proof. unfold Z.div, Z.modulo. destruct (Z.div_eucl a b). reflexivity. Qed.

Lemma Zdigits2_normal (m : positive) :
  2 ^ 52 <= Zpos m < 2 ^ 53 -> Zdigits2 (Zpos m) = 53.
Proof.
  intros H. simpl. apply digits2_pos_unique; [lia | exact H].
Qed.

Lemma round_nearest_even_cases (m : Z) (l : location) :
  round_nearest_even m l = m \/ round_nearest_even m l = m + 1.
Proof.
  destruct l as [| [] ]; simpl; auto. destruct (Z.even m); auto.
Qed.

(** A normal mantissa with an in-range exponent is not rounded. *)
Lemma round_aux_normal (m : positive) (e : Z) :
  2 ^ 52 <= Zpos m < 2 ^ 53 -> -1000 <= e <= 971 ->
  binary_round_aux F64.prec F64.emax false (Zpos m) e loc_Exact = S754_finite false m e.
Proof.
  intros Hm He. unfold binary_round_aux, shr_fexp.
  rewrite (Zdigits2_normal m Hm), fexp64_eq by lia.
  replace (53 + e - 53 - e) with 0 by lia. cbn [shr shr_record_of_loc shr_m loc_of_shr_record round_nearest_even].
  rewrite (Zdigits2_normal m Hm), fexp64_eq by lia.
  replace (53 + e - 53 - e) with 0 by lia. cbn [shr shr_record_of_loc shr_m].
  replace (e <=? F64.emax - F64.prec) with true
    by (symmetry; apply Z.leb_le; unfold F64.emax, F64.prec; lia).
  reflexivity.
Qed.

(** [n as f64] is exact below 2^53. *)
Lemma u64_as_f64_small (n : Z) :
  0 < n < 2 ^ 53 ->
  exists k m, u64_as_f64 n = S754_finite false m (- k) /\ 0 <= k <= 52 /\
              Zpos m = n * 2 ^ k /\ 2 ^ 52 <= Zpos m < 2 ^ 53.
Proof.
  intros Hn. destruct n as [| p | p]; try lia.
  pose proof (digits2_pos_bounds p) as Hb.
  set (d := Zpos (digits2_pos p)) in *.
  assert (Hd : 1 <= d <= 53).
  { split; [unfold d; lia |].
    destruct (Z.le_gt_cases d 53) as [|Hgt]; [assumption |].
    assert (2 ^ 53 <= 2 ^ (d - 1)) by (apply Z.pow_le_mono_r; lia). lia. }
  unfold u64_as_f64, binary_normalize, binary_round.
  rewrite fexp64_eq by (unfold d in Hd; lia). fold d.
  unfold shl_align.
  destruct (d + 0 - 53 - 0) as [| j | j] eqn:E.
  - assert (d = 53) by lia. subst d.
    replace (Zpos (digits2_pos p) + 0 - 53) with 0 by lia.
    exists 0, p. rewrite H in Hb. cbn in Hb.
    rewrite round_aux_normal by (cbn; lia).
    repeat split; try reflexivity; try lia.
  - lia.
  - replace (d + 0 - 53) with (- Zpos j) by lia.
    assert (Hj : Zpos j = 53 - d) by lia.
    assert (H1 : 2 ^ (d - 1) * 2 ^ Zpos j = 2 ^ 52)
      by (rewrite <- Z.pow_add_r by lia; f_equal; lia).
    assert (H2 : 2 ^ d * 2 ^ Zpos j = 2 ^ 53)
      by (rewrite <- Z.pow_add_r by lia; f_equal; lia).
    assert (H3 : 0 < 2 ^ Zpos j) by (apply Z.pow_pos_nonneg; lia).
    assert (Hm : 2 ^ 52 <= Zpos (Pos.iter xO p j) < 2 ^ 53).
    { rewrite Pos_iter_xO. split; nia. }
    exists (Zpos j), (Pos.iter xO p j).
    rewrite round_aux_normal by (try exact Hm; lia).
    repeat split; try reflexivity; try lia.
    apply Pos_iter_xO.
Qed.

(** [n as f64] for 2^53 <= n < 2^64: a normal mantissa with a
    non-negative exponent. *)
Lemma u64_as_f64_large (n : Z) :
  2 ^ 53 <= n < 2 ^ 64 ->
  exists m e, u64_as_f64 n = S754_finite false m e /\ 1 <= e <= 12 /\
              2 ^ 52 <= Zpos m < 2 ^ 53.
Proof.
  intros Hn. destruct n as [| p | p]; try lia.
  pose proof (digits2_pos_bounds p) as Hb.
  set (d := Zpos (digits2_pos p)) in *.
  assert (Hd : 54 <= d <= 64).
  { split.
    - destruct (Z.le_gt_cases 54 d) as [|Hlt]; [assumption |].
      assert (2 ^ d <= 2 ^ 53) by (apply Z.pow_le_mono_r; lia). lia.
    - destruct (Z.le_gt_cases d 64) as [|Hgt]; [assumption |].
      assert (2 ^ 64 <= 2 ^ (d - 1)) by (apply Z.pow_le_mono_r; lia). lia. }
  unfold u64_as_f64, binary_normalize, binary_round.
  rewrite fexp64_eq by (unfold d in Hd; lia). fold d.
  unfold shl_align.
  destruct (d + 0 - 53 - 0) as [| j | j] eqn:E; try lia.
  unfold binary_round_aux, shr_fexp. cbn [Zdigits2]. fold d.
  rewrite fexp64_eq by lia.
  replace (d + 0 - 53 - 0) with (Zpos j) by lia.
  unfold shr at 1.
  set (r1 := iter_pos shr_1 j (shr_record_of_loc (Zpos p) loc_Exact)).
  assert (Hr1 : shr_m r1 = Zpos p / 2 ^ Zpos j).
  { unfold r1. rewrite iter_pos_Pos_iter, shr_iter_m; simpl; lia. }
  assert (Hpj : 0 < 2 ^ Zpos j) by (apply Z.pow_pos_nonneg; lia).
  assert (Hm1 : 2 ^ 52 <= shr_m r1 < 2 ^ 53).
  { rewrite Hr1.
    assert (H1 : 2 ^ 52 * 2 ^ Zpos j = 2 ^ (d - 1))
      by (rewrite <- Z.pow_add_r by lia; f_equal; lia).
    assert (H2 : 2 ^ 53 * 2 ^ Zpos j = 2 ^ d)
      by (rewrite <- Z.pow_add_r by lia; f_equal; lia).
    split.
    - apply Z.div_le_lower_bound; lia.
    - apply Z.div_lt_upper_bound; lia. }
  set (m2 := round_nearest_even (shr_m r1) (loc_of_shr_record r1)).
  assert (Hm2 : 2 ^ 52 <= m2 <= 2 ^ 53)
    by (destruct (round_nearest_even_cases (shr_m r1) (loc_of_shr_record r1)); unfold m2; lia).
  destruct m2 as [| q | q] eqn:Eq2; try lia.
  destruct (Z.eq_dec (Zpos q) (2 ^ 53)) as [E53 | N53].
  - assert (Hq : q = (2 ^ 53)%positive) by (apply Pos2Z.inj; rewrite E53; reflexivity).
    subst q. cbn [Zdigits2].
    replace (Zpos (digits2_pos (2 ^ 53))) with 54 by reflexivity.
    rewrite fexp64_eq by lia.
    replace (54 + (0 + Zpos j) - 53 - (0 + Zpos j)) with 1 by lia.
    cbn [shr iter_pos shr_record_of_loc].
    replace (shr_1 {| shr_m := Zpos (2 ^ 53); shr_r := false; shr_s := false |})
      with {| shr_m := Zpos (2 ^ 52); shr_r := false; shr_s := false |} by reflexivity.
    cbn [shr_m].
    replace (0 + Zpos j + 1 <=? F64.emax - F64.prec) with true
      by (symmetry; apply Z.leb_le; unfold F64.emax, F64.prec; lia).
    exists (2 ^ 52)%positive, (0 + Zpos j + 1).
    repeat split; try lia; reflexivity.
  - assert (Hq : 2 ^ 52 <= Zpos q < 2 ^ 53) by lia.
    rewrite (Zdigits2_normal q Hq), fexp64_eq by lia.
    replace (53 + (0 + Zpos j) - 53 - (0 + Zpos j)) with 0 by lia.
    cbn [shr shr_record_of_loc shr_m].
    replace (0 + Zpos j <=? F64.emax - F64.prec) with true
      by (symmetry; apply Z.leb_le; unfold F64.emax, F64.prec; lia).
    exists q, (0 + Zpos j). repeat split; try lia.
Qed.

(** The [f64] value of [Duration::from_secs(1).as_secs_f64()] is 1.0. *)
Lemma as_secs_f64_one :
  as_secs_f64 (from_secs 1) = S754_finite false (2 ^ 52) (-52).
Proof. vm_compute. reflexivity. Qed.

(** Dividing a normal [f64] by 1.0 returns it unchanged. *)
Lemma f64_div_one (m : positive) (e : Z) :
  2 ^ 52 <= Zpos m < 2 ^ 53 -> -1000 <= e <= 971 ->
  f64_div (S754_finite false m e) (as_secs_f64 (from_secs 1)) = S754_finite false m e.
Proof.
  intros Hm He. rewrite as_secs_f64_one.
  unfold f64_div, SFdiv, SFdiv_core_binary.
  rewrite (Zdigits2_normal m Hm).
  replace (Zdigits2 (Zpos (2 ^ 52))) with 53 by reflexivity.
  rewrite fexp64_eq by lia.
  replace (Z.min (53 + e - (53 + -52) - 53) (e - -52)) with (e - 1) by lia.
  replace (e - -52 - (e - 1)) with 53 by lia.
  rewrite div_eucl_pair, Z.shiftl_mul_pow2 by lia.
  replace (Zpos m * 2 ^ 53 / Zpos (2 ^ 52)) with (Zpos (xO m)).
  2: { rewrite (Pos2Z.inj_xO m), Pos2Z.inj_pow.
       replace (2 ^ 53) with (2 * 2 ^ 52) by reflexivity.
       rewrite Z.mul_assoc, Z.div_mul by lia. lia. }
  replace (Zpos m * 2 ^ 53 mod Zpos (2 ^ 52)) with 0.
  2: { rewrite Pos2Z.inj_pow.
       replace (2 ^ 53) with (2 * 2 ^ 52) by reflexivity.
       rewrite Z.mul_assoc, Z.mod_mul by lia. reflexivity. }
  replace (new_location (Zpos (2 ^ 52)) 0) with loc_Exact by reflexivity.
  cbn [xorb].
  unfold binary_round_aux, shr_fexp.
  assert (H2m : Zdigits2 (Zpos (xO m)) = 54).
  { cbn [Zdigits2]. apply digits2_pos_unique; [lia |].
    rewrite (Pos2Z.inj_xO m). cbn. lia. }
  rewrite H2m, fexp64_eq by lia.
  replace (54 + (e - 1) - 53 - (e - 1)) with 1 by lia.
  cbn [shr iter_pos shr_record_of_loc shr_1 orb shr_m loc_of_shr_record round_nearest_even].
  rewrite (Zdigits2_normal m Hm), fexp64_eq by lia.
  replace (53 + (e - 1 + 1) - 53 - (e - 1 + 1)) with 0 by lia.
  cbn [shr shr_record_of_loc shr_m].
  replace (e - 1 + 1) with e by lia.
  replace (e <=? F64.emax - F64.prec) with true
    by (symmetry; apply Z.leb_le; unfold F64.emax, F64.prec; lia).
  reflexivity.
Qed.

(** Scaling both the divisor and the remainder by [2^k] keeps the
    location of the quotient. *)
Lemma new_location_scale (n r k : Z) :
  0 < n -> 0 <= r < n -> 0 <= k ->
  new_location (n * 2 ^ k) (r * 2 ^ k) = new_location n r.
Proof.
  intros Hn Hr Hk.
  destruct (Z.eq_dec k 0) as [-> | Hk0].
  { rewrite Z.pow_0_r, !Z.mul_1_r. reflexivity. }
  assert (Hp : 0 < 2 ^ k) by (apply Z.pow_pos_nonneg; lia).
  assert (Hev : Z.even (n * 2 ^ k) = true).
  { replace (2 ^ k) with (2 * 2 ^ (k - 1))
      by (rewrite <- Z.pow_succ_r by lia; f_equal; lia).
    rewrite !Z.even_mul. cbn. apply orb_true_r. }
  unfold new_location at 1. rewrite Hev. unfold new_location_even.
  destruct (Z.eq_dec r 0) as [-> | Hr0].
  { cbn. unfold new_location, new_location_even, new_location_odd.
    destruct (Z.even n); reflexivity. }
  replace (r * 2 ^ k =? 0) with false by (symmetry; apply Z.eqb_neq; nia).
  rewrite Z.mul_assoc.
  replace (2 * r * 2 ^ k ?= n * 2 ^ k) with (2 * r ?= n)
    by (destruct (Z.compare_spec (2 * r) n); symmetry;
        [apply Z.compare_eq_iff | apply Z.compare_lt_iff | apply Z.compare_gt_iff];
        nia).
  unfold new_location, new_location_even, new_location_odd.
  assert (Er : (r =? 0) = false) by (apply Z.eqb_neq; exact Hr0).
  destruct (Z.even n) eqn:En; cbv beta; rewrite Er; [reflexivity |].
  f_equal.
  assert (Hodd : 2 * r <> n).
  { intros E. rewrite <- E, Z.even_mul in En. discriminate. }
  destruct (Z.compare_spec (2 * r) n); destruct (Z.compare_spec (2 * r + 1) n);
    try reflexivity; lia.
Qed.

(** The literal [1.0e9_f64]. *)
Lemma f64_1e9_eq : f64_1e9 = S754_finite false 8388608000000000 (-23).
Proof. vm_compute. reflexivity. Qed.

(** Below 2^53, [1.0e9_f64 / (n as f64)] is one correctly rounded
    division of the integers [10^9] and [n]. *)
Lemma precision_small (n : Z) :
  0 < n < 2 ^ 53 -> precision n = f64_of_ratio 1000000000 n.
Proof.
  intros Hn.
  destruct (u64_as_f64_small n Hn) as (k & m & Hc & Hk & Hmn & Hmb).
  assert (Hpk : 0 < 2 ^ k) by (apply Z.pow_pos_nonneg; lia).
  assert (Hdn : Zdigits2 n = 53 - k).
  { destruct n as [| p | p]; try lia. cbn [Zdigits2].
    apply digits2_pos_unique; [lia |].
    assert (H1 : 2 ^ (53 - k - 1) * 2 ^ k = 2 ^ 52)
      by (rewrite <- Z.pow_add_r by lia; f_equal; lia).
    assert (H2 : 2 ^ (53 - k) * 2 ^ k = 2 ^ 53)
      by (rewrite <- Z.pow_add_r by lia; f_equal; lia).
    split; nia. }
  assert (Hcore :
    SFdiv_core_binary F64.prec F64.emax 8388608000000000 (-23) (Zpos m) (- k) =
    SFdiv_core_binary F64.prec F64.emax 1000000000 0 n 0).
  { unfold SFdiv_core_binary.
    rewrite (Zdigits2_normal m Hmb), Hdn.
    replace (Zdigits2 8388608000000000) with 53 by reflexivity.
    replace (Zdigits2 1000000000) with 30 by reflexivity.
    rewrite !fexp64_eq by lia.
    replace (Z.min (53 + -23 - (53 + - k) - 53) (-23 - - k)) with (k - 76) by lia.
    replace (Z.min (30 + 0 - (53 - k + 0) - 53) (0 - 0)) with (k - 76) by lia.
    replace (-23 - - k - (k - 76)) with 53 by lia.
    replace (0 - 0 - (k - 76)) with (Zpos (Z.to_pos (76 - k))) by lia.
    rewrite !div_eucl_pair, !Z.shiftl_mul_pow2 by lia.
    rewrite Z2Pos.id by lia.
    assert (HA : 8388608000000000 * 2 ^ 53 = 1000000000 * 2 ^ (76 - k) * 2 ^ k).
    { rewrite <- Z.mul_assoc, <- Z.pow_add_r by lia.
      replace (76 - k + k) with 76 by lia. reflexivity. }
    rewrite HA, Hmn, Z.div_mul_cancel_r, Z.mul_mod_distr_r by lia.
    rewrite new_location_scale; [reflexivity | lia | | lia].
    apply Z.mod_pos_bound. lia. }
  unfold precision, f64_of_ratio, f64_div, SFdiv.
  rewrite Hc, f64_1e9_eq, Hcore. cbn [xorb]. reflexivity.
Qed.

End Rounding.

(** ** Running the program *)

Module Run.
Import Digits Rounding.

(** The world after one read of the tick counter. *)
Definition after_read (w : world) : world :=
  mk_world (counter w) (S (reads w)) (cntfrq w)
           (trace w ++ [EvCounter (u64 (counter w (reads w)))]).

Lemma u64_range (v : Z) : 0 <= u64 v < 2 ^ 64.
Proof. unfold u64, u64_modulus. apply Z.mod_pos_bound. lia. Qed.

(** [shl rdx, 32; or rax, rdx] rebuilds the value split by [rdtsc]. *)
Lemma combine_split (v : Z) :
  0 <= v < 2 ^ 64 -> combine_edx_eax (Z.shiftr v 32) (Z.land v (2 ^ 32 - 1)) = v.
Proof.
  intros Hv. unfold combine_edx_eax, u64, u64_modulus.
  rewrite Z.mod_small.
  2: { rewrite Z.shiftl_mul_pow2, Z.shiftr_div_pow2 by lia.
       split; [apply Z.mul_nonneg_nonneg; [apply Z.div_pos|]; lia |].
       pose proof (Z.mul_div_le v (2 ^ 32)). lia. }
  apply Z.bits_inj'. intros i Hi.
  rewrite Z.lor_spec, Z.land_spec.
  replace (2 ^ 32 - 1) with (Z.ones 32) by reflexivity.
  rewrite Z.testbit_ones_nonneg by lia.
  destruct (Z.lt_ge_cases i 32) as [Hl | Hg].
  - rewrite Z.shiftl_spec_low by lia. replace (i <? 32) with true by (symmetry; apply Z.ltb_lt; lia).
    rewrite andb_true_r. reflexivity.
  - rewrite Z.shiftl_spec_high, Z.shiftr_spec by lia.
    replace (i <? 32) with false by (symmetry; apply Z.ltb_ge; lia).
    rewrite andb_false_r, orb_false_r. f_equal. lia.
Qed.

Lemma x86_64_start_run (w : world) :
  x86_64_start w = Ret (u64 (counter w (reads w)), after_read w).
Proof.
  unfold x86_64_start, rdtsc, bind, ret, read_counter. cbv beta iota.
  rewrite combine_split by apply u64_range. reflexivity.
Qed.

Lemma x86_64_stop_run (w : world) :
  x86_64_stop w = Ret (u64 (counter w (reads w)), after_read w).
Proof.
  unfold x86_64_stop, rdtsc, bind, ret, read_counter. cbv beta iota.
  rewrite combine_split by apply u64_range. reflexivity.
Qed.

Lemma start_run (a : arch) (w : world) :
  start a w = Ret (u64 (counter w (reads w)), after_read w).
Proof. destruct a; [apply x86_64_start_run | reflexivity]. Qed.

Lemma stop_run (a : arch) (w : world) :
  stop a w = Ret (u64 (counter w (reads w)), after_read w).
Proof. destruct a; [apply x86_64_stop_run | reflexivity]. Qed.

(** The world after [start(); thread::sleep(d); stop()]. *)
Definition after_measure (d : Duration) (w : world) : world :=
  mk_world (counter w) (S (S (reads w))) (cntfrq w)
           (trace w ++ [EvCounter (u64 (counter w (reads w))); EvSleep d;
                        EvCounter (u64 (counter w (S (reads w))))]).

(** The Hz value computed from a tick delta over [d]. *)
Definition hz_of (delta : Z) (d : Duration) : Z :=
  f64_as_u64 (f64_div (u64_as_f64 delta) (as_secs_f64 d)).

Lemma x86_64_measure_frequency_run (mode : build_mode) (d : Duration) (w : world) :
  x86_64_measure_frequency mode d w =
  match sub_u64 mode (u64 (counter w (S (reads w)))) (u64 (counter w (reads w))) with
  | Ret delta => Ret (hz_of delta d, after_measure d w)
  | Panic => Panic
  end.
Proof.
  unfold x86_64_measure_frequency, bind. rewrite start_run.
  unfold sleep. cbn [after_read log counter reads cntfrq trace]. rewrite stop_run. cbn [after_read log counter reads cntfrq trace].
  unfold lift. destruct (sub_u64 _ _ _); [| reflexivity].
  unfold ret, hz_of, after_measure, after_read, log. cbn [counter reads cntfrq trace].
  rewrite <- !app_assoc. reflexivity.
Qed.

(** Hz measured over one second from a tick delta below 2^53 is the
    delta itself. *)
Lemma hz_of_one_sec_small (n : Z) :
  0 < n < 2 ^ 53 -> hz_of n (from_secs 1) = n.
Proof.
  intros Hn. destruct (u64_as_f64_small n Hn) as (k & m & Hc & Hk & Hmn & Hmb).
  unfold hz_of. rewrite Hc, f64_div_one by (try exact Hmb; lia).
  unfold f64_as_u64.
  destruct (Z.eq_dec k 0) as [-> | Hk0].
  - cbn -[Z.pow]. rewrite Hmn. unfold u64_max, u64_modulus. lia.
  - replace (0 <=? - k) with false by (symmetry; apply Z.leb_gt; lia).
    rewrite Z.opp_involutive, Z.shiftr_div_pow2, Hmn, Z.div_mul by lia.
    unfold u64_max, u64_modulus. lia.
Qed.

(** The same for every tick delta below 2^53, including 0. *)
Lemma hz_of_one_sec_below (n : Z) :
  0 <= n < 2 ^ 53 -> hz_of n (from_secs 1) = n.
Proof.
  intros Hn. destruct (Z.eq_dec n 0) as [-> | Hn0].
  - unfold hz_of. rewrite as_secs_f64_one. reflexivity.
  - apply hz_of_one_sec_small. lia.
Qed.

(** Hz measured over one second from a positive tick delta is positive. *)
Lemma hz_of_one_sec_pos (n : Z) :
  0 < n < 2 ^ 64 -> 0 < hz_of n (from_secs 1).
Proof.
  intros Hn. destruct (Z.lt_ge_cases n (2 ^ 53)) as [Hs | Hl].
  - rewrite hz_of_one_sec_small by lia. lia.
  - destruct (u64_as_f64_large n (conj Hl (proj2 Hn))) as (m & e & Hc & He & Hmb).
    unfold hz_of. rewrite Hc, f64_div_one by (try exact Hmb; lia).
    unfold f64_as_u64.
    replace (0 <=? e) with true by (symmetry; apply Z.leb_le; lia).
    rewrite Z.shiftl_mul_pow2 by lia.
    assert (0 < 2 ^ e) by (apply Z.pow_pos_nonneg; lia).
    unfold u64_max, u64_modulus. nia.
Qed.

Lemma hz_of_zero (d : Duration) :
  as_secs_f64 d <> S754_zero false -> as_secs_f64 d <> S754_zero true ->
  as_secs_f64 d <> S754_nan -> hz_of 0 d = 0.
Proof.
  intros H1 H2 H3. unfold hz_of, u64_as_f64, binary_normalize, f64_div, SFdiv.
  destruct (as_secs_f64 d) as [[] | [] | | [] m e]; try reflexivity; congruence.
Qed.

End Run.

(** * Claims *)

Module Claims.
Import Digits Rounding Run.

(** C1: on x86_64, [frequency()] tags its result [Measured(d)] where [d]
    is exactly the interval slept between the two counter reads, and
    that interval is [Duration::from_secs(1)]. The only way not to get a
    pair is the overflow-check panic of a debug build when the counter
    went backwards. *)
Theorem frequency_x86_64_measured (mode : build_mode) (w : world) :
  from_secs 1 = mk_duration 1 0 /\
  match frequency X86_64 mode w with
  | Ret (_, base, w') =>
      base = Measured (from_secs 1) /\
      trace w' = trace w ++ [EvCounter (u64 (counter w (reads w)));
                             EvSleep (from_secs 1);
                             EvCounter (u64 (counter w (S (reads w))))]
  | Panic =>
      mode = Debug /\ u64 (counter w (S (reads w))) < u64 (counter w (reads w))
  end.
Proof.
  split; [reflexivity |].
  unfold frequency, bind. rewrite x86_64_measure_frequency_run.
  unfold sub_u64.
  destruct (Z.ltb_spec (u64 (counter w (S (reads w)))) (u64 (counter w (reads w))));
    [destruct mode |]; cbn; auto.
Qed.

(** C2 (amended): [precision(f)] is the f64 division
    [1.0e9_f64 / (f as f64)]; for [0 < f < 2^53] the conversion is exact
    and the result is the f64 nearest to [10^9 / f]. *)
Theorem precision_nearest_below_2_53 (f : Z) :
  0 < f < 2 ^ 53 ->
  precision f = f64_div f64_1e9 (u64_as_f64 f) /\
  precision f = f64_of_ratio 1000000000 f.
Proof. intros H. split; [reflexivity | apply precision_small, H]. Qed.

Lemma precision_nearest_below_2_53_witness :
  precision 24000000 = f64_of_ratio 1000000000 24000000.
Proof. apply (precision_nearest_below_2_53 24000000). lia. Defined.

(** C2 (counterexample): above 2^53 the input is rounded by [as f64]
    before the division, and the result is not the f64 nearest to
    [10^9 / f]. *)
Lemma precision_double_rounding :
  precision 15303829776787291806 <> f64_of_ratio 1000000000 15303829776787291806.
Proof. vm_compute. discriminate. Qed.

(** C3: [precision(0)] is [+inf]; [precision] has no failure path. *)
Theorem precision_zero_infinite : precision 0 = S754_infinity false.
Proof. reflexivity. Qed.

(** C4 (amended): [x86_64_measure_frequency] reads the counter, sleeps
    for the requested [Duration], reads the counter again, converts the
    u64 tick delta to f64, divides it by [as_secs_f64()] of the requested
    duration and converts the quotient with [as u64], which truncates
    toward zero (saturating). With the 1-second default and a delta
    below 2^53 this gives the delta itself. *)
Theorem x86_64_measure_frequency_truncates (mode : build_mode) (d : Duration) (w : world) :
  match x86_64_measure_frequency mode d w with
  | Ret (hz, w') =>
      trace w' = trace w ++ [EvCounter (u64 (counter w (reads w))); EvSleep d;
                             EvCounter (u64 (counter w (S (reads w))))] /\
      exists delta,
        sub_u64 mode (u64 (counter w (S (reads w)))) (u64 (counter w (reads w))) = Ret delta /\
        hz = f64_as_u64 (f64_div (u64_as_f64 delta) (as_secs_f64 d)) /\
        (d = from_secs 1 -> 0 <= delta < 2 ^ 53 -> hz = delta)
  | Panic => True
  end.
Proof.
  rewrite x86_64_measure_frequency_run.
  destruct (sub_u64 _ _ _) as [delta |] eqn:E; [| exact I].
  split; [reflexivity |]. exists delta. repeat split.
  intros -> Hd. apply hz_of_one_sec_below, Hd.
Qed.

(** C4 (counterexample): 5 ticks over 3 seconds give 1 Hz, while the
    nearest integer to 5/3 is 2 ([|5/3 - 1| > 1/2]). *)
Lemma x86_64_measure_frequency_not_nearest :
  match x86_64_measure_frequency Release (from_secs 3) (world_of [0; 5] 0) with
  | Ret (hz, _) => hz = 1 /\ 2 * 5 - 2 * 3 * hz > 3
  | Panic => False
  end.
Proof. vm_compute. split; reflexivity. Qed.

Lemma x86_64_measure_frequency_truncates_witness :
  match x86_64_measure_frequency Release (from_secs 1) (world_of [100; 2400000100] 0) with
  | Ret (hz, _) => hz = 2400000000
  | Panic => False
  end.
Proof.
  pose proof (x86_64_measure_frequency_truncates Release (from_secs 1)
                (world_of [100; 2400000100] 0)) as H.
  destruct (x86_64_measure_frequency Release (from_secs 1) (world_of [100; 2400000100] 0))
    as [[hz w'] |] eqn:E.
  - destruct H as [_ [delta [Hs [_ Hk]]]].
    vm_compute in Hs. injection Hs as <-.
    apply Hk; [reflexivity | lia].
  - vm_compute in E. discriminate.
Defined.

(** C5 (counterexample): nothing in [frequency()] makes the Hz value
    positive: a zero [cntfrq_el0] on aarch64, or a counter that reads the
    same value before and after the sleep on x86_64, gives 0 Hz. *)
Lemma frequency_zero_hz :
  (match frequency AArch64 Release (world_of [] 0) with
   | Ret (hz, _, _) => hz = 0 | Panic => False end) /\
  (match frequency X86_64 Release (world_of [7; 7] 0) with
   | Ret (hz, _, _) => hz = 0 | Panic => False end).
Proof. vm_compute. split; reflexivity. Qed.

(** C5 (amended): the Hz value is positive exactly when the hardware
    provides it so: on aarch64 it is the value of [cntfrq_el0], positive
    iff that register is not 0; on x86_64 it is positive iff the counter
    changed across the 1-second sleep (the debug build panics instead
    when the counter went backwards). *)
Theorem frequency_positive_iff (mode : build_mode) (w : world) :
  (match frequency AArch64 mode w with
   | Ret (hz, _, _) => hz = u64 (cntfrq w) /\ (0 < hz <-> u64 (cntfrq w) <> 0)
   | Panic => False
   end) /\
  (match frequency X86_64 mode w with
   | Ret (hz, _, _) =>
       ~ (mode = Debug /\ u64 (counter w (S (reads w))) < u64 (counter w (reads w))) /\
       (0 < hz <-> u64 (counter w (S (reads w))) <> u64 (counter w (reads w)))
   | Panic =>
       mode = Debug /\ u64 (counter w (S (reads w))) < u64 (counter w (reads w))
   end).
Proof.
  split.
  - cbn. pose proof (u64_range (cntfrq w)). split; [reflexivity | lia].
  - unfold frequency, bind. rewrite x86_64_measure_frequency_run.
    pose proof (u64_range (counter w (reads w))) as Ha.
    pose proof (u64_range (counter w (S (reads w)))) as Hb.
    set (a := u64 (counter w (reads w))) in *.
    set (b := u64 (counter w (S (reads w)))) in *.
    unfold sub_u64.
    destruct (Z.ltb_spec b a) as [Hlt | Hge].
    + destruct mode; [cbn; auto |].
      cbn [ret]. unfold u64_modulus.
      pose proof (hz_of_one_sec_pos (b - a + 2 ^ 64) ltac:(lia)).
      split; [intros [Hm _]; discriminate Hm | split; lia].
    + cbn [ret]. split; [intros [_ Hm]; lia |].
      destruct (Z.eq_dec b a) as [Heq | Hne].
      * rewrite Heq, Z.sub_diag, hz_of_zero by (rewrite as_secs_f64_one; discriminate).
        split; [lia | congruence].
      * pose proof (hz_of_one_sec_pos (b - a) ltac:(lia)). split; lia.
Qed.

(** C6: on aarch64, [frequency()] reads [cntfrq_el0] once and tags the
    value [Hardware]; it reads no counter and does not sleep. *)
Theorem frequency_aarch64_hardware (mode : build_mode) (w : world) :
  frequency AArch64 mode w =
  Ret (u64 (cntfrq w), Hardware, log (EvFreqReg (u64 (cntfrq w))) w).
Proof. reflexivity. Qed.

(** C7: [precision(24_000_000) as u64 == 41]. *)
Theorem precision_24MHz : f64_as_u64 (precision 24000000) = 41.
Proof. vm_compute. reflexivity. Qed.

(** C8: [TickCounter::current()] stores exactly one counter sample;
    [elapsed()] reads the counter once more and returns the u64
    difference against the stored sample (wrapping modulo 2^64 in a
    release build, panicking on underflow in a debug build). *)
Theorem tick_counter_current_elapsed (a : arch) (mode : build_mode) (w : world) :
  let s1 := u64 (counter w (reads w)) in
  let s2 := u64 (counter w (S (reads w))) in
  current a w = Ret (mk_tick_counter s1, after_read w) /\
  elapsed a mode (mk_tick_counter s1) (after_read w) =
    match sub_u64 mode s2 s1 with
    | Ret v => Ret (v, after_read (after_read w))
    | Panic => Panic
    end /\
  elapsed a Release (mk_tick_counter s1) (after_read w) =
    Ret ((s2 - s1) mod 2 ^ 64, after_read (after_read w)).
Proof.
  intros s1 s2.
  pose proof (u64_range (counter w (reads w))) as H1.
  pose proof (u64_range (counter w (S (reads w)))) as H2.
  unfold current, elapsed, bind. rewrite start_run, !stop_run.
  split; [reflexivity |]. split; [reflexivity |].
  cbn [after_read counter reads tick_counter_start]. fold s1 s2.
  unfold sub_u64. destruct (Z.ltb_spec s2 s1); cbn [lift].
  - f_equal. f_equal. unfold u64_modulus, s1, s2 in *.
    apply Z.mod_unique with (-1); lia.
  - f_equal. f_equal. unfold s1, s2 in *. symmetry. apply Z.mod_small. lia.
Qed.

(** C10: the tick delta of [x86_64_measure_frequency] is a plain u64
    subtraction: when the second sample is not below the first, no panic
    is possible and the delta is their difference; otherwise a debug
    build panics and a release build wraps modulo 2^64. In no case is an
    error value returned. *)
Theorem x86_64_measure_frequency_sub (mode : build_mode) (d : Duration) (w : world) :
  let counter_start := u64 (counter w (reads w)) in
  let counter_stop := u64 (counter w (S (reads w))) in
  x86_64_measure_frequency mode d w =
  if counter_stop <? counter_start then
    match mode with
    | Debug => Panic
    | Release => Ret (hz_of ((counter_stop - counter_start) mod 2 ^ 64) d, after_measure d w)
    end
  else Ret (hz_of (counter_stop - counter_start) d, after_measure d w).
Proof.
  intros cs ce.
  pose proof (u64_range (counter w (reads w))) as H1.
  pose proof (u64_range (counter w (S (reads w)))) as H2.
  rewrite x86_64_measure_frequency_run. fold cs ce. unfold sub_u64.
  destruct (Z.ltb_spec ce cs); [destruct mode |]; try reflexivity.
  do 3 f_equal. unfold u64_modulus. apply Z.mod_unique with (-1); lia.
Qed.

End Claims.

(** * Further properties of the code *)

(** ** Rounding of mantissas of 53 to 55 bits *)

Module Rounding2.
Import Digits Rounding.

Lemma shr_record_of_loc_m (m : Z) (l : location) :
  shr_m (shr_record_of_loc m l) = m.
Proof. destruct l as [| [] ]; reflexivity. Qed.

Lemma shr_fexp_bounds (m e : Z) (l : location) :
  2 ^ 52 <= m < 2 ^ 55 -> -1000 <= e <= 960 ->
  2 ^ 52 <= shr_m (fst (shr_fexp F64.prec F64.emax m e l)) < 2 ^ 53 /\
  e <= snd (shr_fexp F64.prec F64.emax m e l) <= e + 2.
Proof.
  intros Hm He. destruct m as [| p | p]; try lia.
  pose proof (digits2_pos_bounds p) as Hb.
  unfold shr_fexp. cbn [Zdigits2].
  set (d := Zpos (digits2_pos p)) in *.
  assert (Hd : 53 <= d <= 55).
  { split.
    - destruct (Z.le_gt_cases 53 d) as [|Hlt]; [assumption |].
      assert (2 ^ d <= 2 ^ 52) by (apply Z.pow_le_mono_r; lia). lia.
    - destruct (Z.le_gt_cases d 55) as [|Hgt]; [assumption |].
      assert (2 ^ 55 <= 2 ^ (d - 1)) by (apply Z.pow_le_mono_r; lia). lia. }
  rewrite fexp64_eq by lia.
  replace (d + e - 53 - e) with (d - 53) by lia.
  destruct (Z.eq_dec d 53) as [E | E].
  - replace (d - 53) with 0 by lia. cbn [shr fst snd].
    rewrite shr_record_of_loc_m. rewrite E in Hb. cbn in Hb. lia.
  - replace (d - 53) with (Zpos (Z.to_pos (d - 53))) by lia.
    cbn [shr fst snd].
    rewrite iter_pos_Pos_iter.
    rewrite shr_iter_m by (rewrite shr_record_of_loc_m; lia).
    rewrite shr_record_of_loc_m.
    rewrite Z2Pos.id by lia.
    assert (H1 : 2 ^ 52 * 2 ^ (d - 53) = 2 ^ (d - 1))
      by (rewrite <- Z.pow_add_r by lia; f_equal; lia).
    assert (H2 : 2 ^ 53 * 2 ^ (d - 53) = 2 ^ d)
      by (rewrite <- Z.pow_add_r by lia; f_equal; lia).
    assert (0 < 2 ^ (d - 53)) by (apply Z.pow_pos_nonneg; lia).
    repeat split; try lia.
    + apply Z.div_le_lower_bound; lia.
    + apply Z.div_lt_upper_bound; lia.
Qed.

(** A positive mantissa of 53 or 54 bits with an exponent in range
    rounds to a positive finite [f64]. *)
Lemma round_aux_finite (q e : Z) (l : location) :
  2 ^ 52 <= q < 2 ^ 54 -> -1000 <= e <= 900 ->
  exists m e', binary_round_aux F64.prec F64.emax false q e l = S754_finite false m e' /\
               2 ^ 52 <= Zpos m < 2 ^ 53.
Proof.
  intros Hq He. unfold binary_round_aux.
  pose proof (shr_fexp_bounds q e l ltac:(lia) ltac:(lia)) as [B1 C1].
  destruct (shr_fexp F64.prec F64.emax q e l) as [r1 e1] eqn:E1.
  cbn [fst snd] in B1, C1.
  set (m2 := round_nearest_even (shr_m r1) (loc_of_shr_record r1)).
  assert (Hm2 : 2 ^ 52 <= m2 <= 2 ^ 53)
    by (destruct (round_nearest_even_cases (shr_m r1) (loc_of_shr_record r1)); unfold m2; lia).
  pose proof (shr_fexp_bounds m2 e1 loc_Exact ltac:(lia) ltac:(lia)) as [B2 C2].
  destruct (shr_fexp F64.prec F64.emax m2 e1 loc_Exact) as [r2 e2] eqn:E2.
  cbn [fst snd] in B2, C2.
  destruct (shr_m r2) as [| p | p]; try lia.
  replace (e2 <=? F64.emax - F64.prec) with true
    by (symmetry; apply Z.leb_le; unfold F64.emax, F64.prec; lia).
  exists p, e2. split; [reflexivity | lia].
Qed.

(** Every [n as f64] with [0 < n < 2^64] is a normal positive [f64]
    with an exponent in [-52, 12]. *)
Lemma u64_as_f64_normal (n : Z) :
  0 < n < 2 ^ 64 ->
  exists m e, u64_as_f64 n = S754_finite false m e /\ -52 <= e <= 12 /\
              2 ^ 52 <= Zpos m < 2 ^ 53.
Proof.
  intros Hn. destruct (Z.lt_ge_cases n (2 ^ 53)) as [Hs | Hl].
  - destruct (u64_as_f64_small n ltac:(lia)) as (k & m & Hc & Hk & _ & Hm).
    exists m, (- k). repeat split; auto; lia.
  - destruct (u64_as_f64_large n ltac:(lia)) as (m & e & Hc & He & Hm).
    exists m, e. repeat split; auto; lia.
Qed.

End Rounding2.

Module Extra.
Import Digits Rounding Run Rounding2.

(** Reduce [Ret (x, w) = Ret (y, w)] to [x = y]. *)
Ltac ret_eq :=
  match goal with
  | |- Ret (?x, ?w) = Ret (?y, ?w) =>
      apply (f_equal (fun v => Ret (v, w)))
  end.

(** [precision(f)] is a positive finite [f64] (neither 0, infinite nor
    NaN) for every non-zero u64 frequency. *)
Theorem precision_positive_finite (f : Z) :
  0 < f < 2 ^ 64 -> exists m e, precision f = S754_finite false m e.
Proof.
  intros Hf. destruct (u64_as_f64_normal f Hf) as (m & e & Hc & He & Hm).
  unfold precision, f64_div, SFdiv. rewrite Hc, f64_1e9_eq. cbn [xorb].
  unfold SFdiv_core_binary. rewrite (Zdigits2_normal m Hm).
  replace (Zdigits2 8388608000000000) with 53 by reflexivity.
  rewrite fexp64_eq by lia.
  replace (Z.min (53 + -23 - (53 + e) - 53) (-23 - e)) with (-76 - e) by lia.
  replace (-23 - e - (-76 - e)) with 53 by lia.
  rewrite div_eucl_pair, Z.shiftl_mul_pow2 by lia.
  cbv beta iota.
  assert (Hq : 2 ^ 52 <= 8388608000000000 * 2 ^ 53 / Zpos m < 2 ^ 54).
  { split.
    - apply Z.div_le_lower_bound; lia.
    - apply Z.div_lt_upper_bound; lia. }
  destruct (round_aux_finite _ (-76 - e)
              (new_location (Zpos m) (8388608000000000 * 2 ^ 53 mod Zpos m)) Hq
              ltac:(lia)) as (m' & e' & H & _).
  exists m', e'. exact H.
Qed.

Lemma precision_positive_finite_witness :
  exists m e, precision 24000000 = S754_finite false m e.
Proof. apply (precision_positive_finite 24000000). lia. Defined.

(** All raw readers return the full 64-bit counter value of a single
    read: [x86_64_tick_counter], the tick part of [x86_64_processor_id]
    (whose second part is the low 32 bits of [IA32_TSC_AUX]), [start] and
    [stop] on both architectures. None of them loses the high half. *)
Theorem counter_readers_full_value (a : arch) (tsc_aux : Z) (w : world) :
  let v := u64 (counter w (reads w)) in
  x86_64_tick_counter w = Ret (v, after_read w) /\
  x86_64_processor_id tsc_aux w = Ret ((v, tsc_aux mod 2 ^ 32), after_read w) /\
  start a w = Ret (v, after_read w) /\
  stop a w = Ret (v, after_read w).
Proof.
  intros v. split; [| split; [| split]].
  - unfold x86_64_tick_counter, rdtsc, bind, ret, read_counter. cbv beta iota.
    pose proof (combine_split _ (u64_range (counter w (reads w)))) as H.
    unfold combine_edx_eax in H. rewrite H. reflexivity.
  - unfold x86_64_processor_id, rdtscp, rdtsc, bind, ret, read_counter. cbv beta iota.
    pose proof (combine_split _ (u64_range (counter w (reads w)))) as H.
    unfold combine_edx_eax in H. rewrite H. reflexivity.
  - apply start_run.
  - apply stop_run.
Qed.

(** Measuring over a zero [Duration]: [as_secs_f64()] is 0.0, so the
    quotient is +inf and [as u64] saturates to [u64::MAX] when the
    counter changed, or it is NaN and [as u64] gives 0 when it did not.
    A debug build panics instead when the counter went backwards. *)
Theorem x86_64_measure_frequency_zero_duration (mode : build_mode) (w : world) :
  let counter_start := u64 (counter w (reads w)) in
  let counter_stop := u64 (counter w (S (reads w))) in
  match x86_64_measure_frequency mode (mk_duration 0 0) w with
  | Ret (hz, _) =>
      ~ (mode = Debug /\ counter_stop < counter_start) /\
      hz = if counter_stop =? counter_start then 0 else u64_max
  | Panic => mode = Debug /\ counter_stop < counter_start
  end.
Proof.
  intros cs ce.
  pose proof (u64_range (counter w (reads w))) as H1.
  pose proof (u64_range (counter w (S (reads w)))) as H2.
  rewrite x86_64_measure_frequency_run. fold cs ce.
  assert (Hz : as_secs_f64 (mk_duration 0 0) = S754_zero false) by reflexivity.
  assert (Hpos : forall n, 0 < n < 2 ^ 64 -> hz_of n (mk_duration 0 0) = u64_max).
  { intros n Hn. destruct (u64_as_f64_normal n Hn) as (m & e & Hc & _).
    unfold hz_of. rewrite Hc, Hz. reflexivity. }
  unfold sub_u64.
  destruct (Z.ltb_spec ce cs) as [Hlt | Hge].
  - destruct mode; [auto |].
    split; [intros [Hm _]; discriminate Hm |].
    rewrite Hpos by (unfold cs, ce, u64_modulus in *; lia).
    replace (ce =? cs) with false by (symmetry; apply Z.eqb_neq; lia). reflexivity.
  - split; [intros [_ Hm]; lia |].
    destruct (Z.eqb_spec ce cs) as [Heq | Hne].
    + rewrite Heq, Z.sub_diag. reflexivity.
    + apply Hpos. unfold cs, ce in *. lia.
Qed.

(** [compare_with_time_instant]'s [stop() - counter_start + 1]: a
    release build returns the difference plus one, modulo 2^64; a debug
    build panics when the counter went backwards or when the difference
    is [u64::MAX], and otherwise returns the difference plus one. *)
Theorem sample_elapsed_ticks_plus_one (a : arch) (mode : build_mode) (w : world) :
  let c0 := u64 (counter w (reads w)) in
  let c1 := u64 (counter w (S (reads w))) in
  sample_elapsed_ticks a mode w =
  match mode with
  | Release => Ret ((c1 - c0 + 1) mod 2 ^ 64, after_read (after_read w))
  | Debug =>
      if (c1 <? c0) || (c1 - c0 =? u64_max) then Panic
      else Ret (c1 - c0 + 1, after_read (after_read w))
  end.
Proof.
  intros c0 c1.
  pose proof (u64_range (counter w (reads w))) as H0.
  pose proof (u64_range (counter w (S (reads w)))) as H1.
  unfold sample_elapsed_ticks, bind. rewrite start_run, stop_run.
  cbn [after_read counter reads]. fold c0 c1.
  unfold sub_u64, add_u64, lift, u64_max, u64_modulus.
  fold c0 c1 in H0, H1.
  destruct (Z.ltb_spec c1 c0); destruct mode; cbn [orb].
  - reflexivity.
  - destruct (Z.ltb_spec (2 ^ 64 - 1) (c1 - c0 + 2 ^ 64 + 1)); ret_eq.
    + apply (Z.mod_unique _ _ 0); lia.
    + apply (Z.mod_unique _ _ (-1)); lia.
  - destruct (Z.eqb_spec (c1 - c0) (2 ^ 64 - 1));
      destruct (Z.ltb_spec (2 ^ 64 - 1) (c1 - c0 + 1)); try lia; reflexivity.
  - destruct (Z.ltb_spec (2 ^ 64 - 1) (c1 - c0 + 1)); ret_eq.
    + apply (Z.mod_unique _ _ 1); lia.
    + symmetry. apply Z.mod_small. lia.
Qed.

(** With a zero frequency, [(elapsed_ticks as f64) * precision(0)] does
    not panic: it is +inf for a non-zero tick count and NaN for zero
    ticks. *)
Theorem elapsed_nanoseconds_zero_frequency (elapsed_ticks : Z) :
  0 <= elapsed_ticks < 2 ^ 64 ->
  elapsed_nanoseconds elapsed_ticks (precision 0) =
  if elapsed_ticks =? 0 then S754_nan else S754_infinity false.
Proof.
  intros Ht. unfold elapsed_nanoseconds.
  replace (precision 0) with (S754_infinity false) by reflexivity.
  destruct (Z.eqb_spec elapsed_ticks 0) as [-> | Hne]; [reflexivity |].
  destruct (u64_as_f64_normal elapsed_ticks ltac:(lia)) as (m & e & Hc & _).
  rewrite Hc. reflexivity.
Qed.

Lemma elapsed_nanoseconds_zero_frequency_witness :
  elapsed_nanoseconds 24000000 (precision 0) = S754_infinity false.
Proof. apply (elapsed_nanoseconds_zero_frequency 24000000). lia. Defined.

End Extra.
